(** * SendDistance: the VL6180X range sampler of Picking-OSS

    A verification development for [picking/SendDistance/SendDistance.ino].

    The sketch is two functions, [setup] and [loop], that call into the
    Arduino core ([Serial], [Wire]) and into the VL6180X driver ([sensor]).
    Neither library belongs to the repository: both are modelled here as
    the platform the sketch runs on, in the form of a recording test
    double ([Module Platform]).  The sketch itself ([Module Sketch]) is
    written in a small state monad over that platform, statement by
    statement as in the source. *)

From Equations Require Import Equations.
From Stdlib Require Import String Ascii ZArith NArith List Bool Lia.
Import ListNotations.

Local Open Scope Z_scope.

(* ===================================================================== *)
(** ** Machine integers *)
(* ===================================================================== *)

Module MachInt.

(** Values of [uint16_t], the return type of
    [VL6180X::readRangeSingleMillimeters]. *)
Definition uint16 (z : Z) : Prop := 0 <= z < 2 ^ 16.

(** Values of a signed two's-complement integer of [bits] bits. *)
Definition int_min (bits : Z) : Z := - 2 ^ (bits - 1).
Definition int_max (bits : Z) : Z := 2 ^ (bits - 1) - 1.

Definition representable (bits z : Z) : Prop :=
  int_min bits <= z <= int_max bits.

(** Conversion of an integer value to a signed integer of [bits] bits:
    the value is reduced modulo [2 ^ bits] into the signed range.  This
    is what [int distance = <uint16_t expression>;] does under the
    compilers Arduino boards are built with. *)
Definition to_int (bits z : Z) : Z :=
  (z + 2 ^ (bits - 1)) mod 2 ^ bits - 2 ^ (bits - 1).

End MachInt.

(* ===================================================================== *)
(** ** A small state monad *)
(* ===================================================================== *)

Module StateM.

Definition M (S A : Type) : Type := S -> A * S.

Definition ret {S A} (a : A) : M S A := fun s => (a, s).

Definition bind {S A B} (m : M S A) (k : A -> M S B) : M S B :=
  fun s => let (a, s') := m s in k a s'.

Definition exec {S A} (m : M S A) (s : S) : S := snd (m s).

End StateM.

Declare Scope sketch_scope.
Delimit Scope sketch_scope with sketch.

Notation "x <- m ;; k" := (StateM.bind m (fun x => k))
  (at level 61, m at next level, right associativity) : sketch_scope.
Notation "m ;; k" := (StateM.bind m (fun _ => k))
  (at level 61, right associativity) : sketch_scope.

(* ===================================================================== *)
(** ** The platform: Arduino core and VL6180X driver as a test double *)
(* ===================================================================== *)

Module Platform.

Import StateM.

(** What one single-shot measurement does: the value the read returns
    and whether the read ran into the configured timeout. *)
Record outcome : Type := Outcome { raw : Z; timed_out : bool }.

(** The sensor as the sketch sees it: the outcome of the first, second,
    third, ... range request. *)
Definition environment : Type := nat -> outcome.

(** The outcome of a read that gets no answer from the device. *)
Definition no_answer : outcome := Outcome 255 true.

(** An environment that feeds the given outcomes and then stops
    answering. *)
Definition feed (outs : list outcome) : environment :=
  fun i => nth i outs no_answer.

(** Calls observed on the platform, in the order they happen.  A range
    request is recorded when it is issued and again when it returns. *)
Inductive event : Type :=
| EvSerialBegin (baud : Z)
| EvWireBegin
| EvInit
| EvConfigureDefault
| EvSetTimeout (t : Z)
| EvRangeRequest
| EvRangeReturn (v : Z)
| EvTimeoutOccurred (r : bool)
| EvPrintln (n : Z).

Record world : Type := World {
  channel : option Z;     (* baud rate of [Serial], once begun *)
  io_timeout : Z;         (* the driver's read timeout *)
  did_timeout : bool;     (* the driver's timeout flag *)
  requests : nat;         (* range requests issued so far *)
  wire : list ascii;      (* bytes written to [Serial] so far *)
  log : list event        (* calls recorded so far *)
}.

(** The board after reset: [Serial] closed, the driver object freshly
    constructed, nothing sent. *)
Definition power_on : world :=
  World None 0 false 0%nat [] [].

Definition record (e : event) (w : world) : world :=
  World (channel w) (io_timeout w) (did_timeout w) (requests w)
        (wire w) (log w ++ [e]).

Definition set_channel (b : Z) (w : world) : world :=
  World (Some b) (io_timeout w) (did_timeout w) (requests w)
        (wire w) (log w).

Definition set_io_timeout (t : Z) (w : world) : world :=
  World (channel w) t (did_timeout w) (requests w) (wire w) (log w).

Definition set_did_timeout (b : bool) (w : world) : world :=
  World (channel w) (io_timeout w) b (requests w) (wire w) (log w).

Definition count_request (w : world) : world :=
  World (channel w) (io_timeout w) (did_timeout w) (S (requests w))
        (wire w) (log w).

Definition transmit (bytes : list ascii) (w : world) : world :=
  World (channel w) (io_timeout w) (did_timeout w) (requests w)
        (wire w ++ bytes) (log w).

(** *** Decimal printing

    The Arduino core's [Print] class, which [Serial.println] goes
    through, is not under src/.  The spec has the channel carry "one
    decimal integer (millimeters) per line, terminated by a line break";
    the definitions below spell that out the way the core does it: digits
    by repeated division by ten, a minus sign in front of a negative
    number, carriage return and line feed as the line break. *)

(** Modelled from the spec: a decimal digit of the printed integer,
    [c + '0'] for a digit value [c] ([Print::printNumber] is missing). *)
Definition digit_char (c : N) : ascii := ascii_of_N (48 + c).

(** Modelled from the spec: the decimal digits of an unsigned number
    ([Print::printNumber(n, 10)] is missing).  The digits are produced
    from the least significant one, each stored in front of the ones
    produced before:
    [do { c = n % 10; n /= 10; *--str = c + '0'; } while (n);] *)
Equations? printNumber (n : N) (str : list ascii) : list ascii
  by wf (N.to_nat n) lt :=
  printNumber n str with N.eq_dec (n / 10) 0 => {
    | left _ := digit_char (n mod 10) :: str
    | right _ := printNumber (n / 10) (digit_char (n mod 10) :: str) }.
Proof.
  assert (Hn : (0 < n)%N).
  { destruct n as [ | p ]; [ exfalso; auto | reflexivity ]. }
  pose proof (N.div_lt n 10 Hn eq_refl) as Hlt.
  lia.
Qed.

(** Modelled from the spec: "one decimal integer" ([Print::print(long,
    DEC)] is missing): a minus sign and the magnitude for a negative
    number, the number itself otherwise. *)
Definition print_int (n : Z) : list ascii :=
  if n <? 0 then "-"%char :: printNumber (Z.to_N (- n)) []
  else printNumber (Z.to_N n) [].

(** Modelled from the spec: "terminated by a line break"
    ([Print::println()] is missing): a carriage return and a line
    feed. *)
Definition line_break : list ascii := ["013"%char; "010"%char].

(** *** The calls the sketch makes

    [Serial], [Wire] and the [VL6180X] class are not under src/.  Each
    call records itself in the log and has the effect the spec gives
    it. *)

(** Modelled from the spec: "open a communication channel at a fixed
    high baud rate" ([HardwareSerial::begin] is missing). *)
Definition Serial_begin (baud : Z) : M world unit :=
  fun w => (tt, record (EvSerialBegin baud) (set_channel baud w)).

(** Modelled from the spec: "initialize the shared two-wire bus used to
    talk to the sensor" ([TwoWire::begin] is missing). *)
Definition Wire_begin : M world unit :=
  fun w => (tt, record EvWireBegin w).

(** Modelled from the spec: "initialize the sensor device handle"
    ([VL6180X::init] is missing). *)
Definition sensor_init : M world unit :=
  fun w => (tt, record EvInit w).

(** Modelled from the spec: "apply default factory configuration"
    ([VL6180X::configureDefault] is missing). *)
Definition sensor_configureDefault : M world unit :=
  fun w => (tt, record EvConfigureDefault w).

(** Modelled from the spec: "set a per-measurement timeout"
    ([VL6180X::setTimeout] is missing). *)
Definition sensor_setTimeout (t : Z) : M world unit :=
  fun w => (tt, record (EvSetTimeout t) (set_io_timeout t w)).

(** Modelled from the spec: "request a single-shot range measurement;
    this call blocks the calling thread until the sensor responds or the
    configured timeout elapses"
    ([VL6180X::readRangeSingleMillimeters] is missing).  The request is
    issued, the call waits, and returns the reading.  A timeout raises
    the driver's flag.  The sketch enters every read with the flag down,
    and then the flag after the read tells whether that read timed out,
    which is what the spec's inspection reports; a read entered with the
    flag raised, which no run of the sketch makes, leaves it raised. *)
Definition sensor_readRangeSingleMillimeters (env : environment)
  : M world Z :=
  fun w =>
    let o := env (requests w) in
    let w1 := count_request (record EvRangeRequest w) in
    let w2 := set_did_timeout (did_timeout w1 || timed_out o) w1 in
    (raw o, record (EvRangeReturn (raw o)) w2).

(** Modelled from the spec: "inspect whether the prior call timed out"
    ([VL6180X::timeoutOccurred] is missing).  The driver answers from its flag, which tells whether a read has
    timed out since the flag was last inspected, and lowers it. *)
Definition sensor_timeoutOccurred : M world bool :=
  fun w =>
    let r := did_timeout w in
    (r, record (EvTimeoutOccurred r) (set_did_timeout false w)).

(** Modelled from the spec: "emit the measured distance (millimeters) to
    the reporting channel, one value per line" ([Print::println(int)] is
    missing): the number in decimal, then a line break. *)
Definition Serial_println (n : Z) : M world unit :=
  fun w => (tt, record (EvPrintln n) (transmit (print_int n ++ line_break) w)).

End Platform.

(* ===================================================================== *)
(** ** The sketch *)
(* ===================================================================== *)

Module Sketch.

Import StateM Platform.
Local Open Scope sketch_scope.

Section Program.

(** Width of [int] on the target the sketch is compiled for (16 on
    AVR boards, 32 on ARM ones). *)
Variable int_bits : Z.

(** The sensor in front of the board. *)
Variable env : environment.

Definition setup : M world unit :=
  Serial_begin 2000000 ;;
  Wire_begin ;;
  sensor_init ;;
  sensor_configureDefault ;;
  sensor_setTimeout 500.

Definition loop : M world unit :=
  reading <- sensor_readRangeSingleMillimeters env ;;
  let distance := MachInt.to_int int_bits reading in
  timeout <- sensor_timeoutOccurred ;;
  if Z.b2z timeout =? 0 then
    Serial_println distance
  else
    ret tt.

(** The Arduino runtime calls [setup] once and then [loop] over and
    over.  [boot n] is the board right after the [n]-th call of
    [loop] has returned. *)
Fixpoint boot (n : nat) : world :=
  match n with
  | O => exec setup power_on
  | S k => exec loop (boot k)
  end.

End Program.

End Sketch.

(* ===================================================================== *)
(** ** What an observer of the board sees *)
(* ===================================================================== *)

Module Observe.

Import StateM Platform Sketch.

(** The outcomes of the first [n] range requests. *)
Definition outcomes (env : environment) (n : nat) : list outcome :=
  map env (seq 0 n).

(** A run with a timeout in the middle: 120 mm, no answer, 95 mm. *)
Definition mixed_outcomes : list outcome :=
  [Outcome 120 false; no_answer; Outcome 95 false].

(** The environment that lacks the [i]-th measurement of [env]. *)
Definition without (i : nat) (env : environment) : environment :=
  fun j => if (j <? i)%nat then env j else env (S j).

(** The calls [setup] makes. *)
Definition setup_log : list event :=
  [EvSerialBegin 2000000; EvWireBegin; EvInit; EvConfigureDefault;
   EvSetTimeout 500].

(** The calls one run of [loop] makes when its measurement has
    outcome [o]. *)
Definition iteration_log (int_bits : Z) (o : outcome) : list event :=
  [EvRangeRequest; EvRangeReturn (raw o); EvTimeoutOccurred (timed_out o)]
  ++ (if timed_out o then []
      else [EvPrintln (MachInt.to_int int_bits (raw o))]).

(** The line reporting the measurement [o]. *)
Definition report_line (int_bits : Z) (o : outcome) : list ascii :=
  print_int (MachInt.to_int int_bits (raw o)) ++ line_break.

(** The bytes one run of [loop] sends when its measurement has
    outcome [o]. *)
Definition report (int_bits : Z) (o : outcome) : list ascii :=
  if timed_out o then [] else report_line int_bits o.

(** The bytes the [i]-th run of [loop] adds to the channel, read off
    the channel before and after that run. *)
Definition emitted (int_bits : Z) (env : environment) (i : nat)
  : list ascii :=
  skipn (length (wire (boot int_bits env i)))
        (wire (boot int_bits env (S i))).

(** What the board keeps from one iteration to the next: the state of
    the channel, the driver's settings and flag, and what has been
    sent.  The request counter and the log belong to the observer. *)
Definition retained (w : world) : option Z * Z * bool * list ascii :=
  (channel w, io_timeout w, did_timeout w, wire w).

(** *** Reading the log *)

Definition is_request (e : event) : bool :=
  match e with EvRangeRequest => true | _ => false end.

Definition is_return (e : event) : bool :=
  match e with EvRangeReturn _ => true | _ => false end.

Definition is_setTimeout (e : event) : bool :=
  match e with EvSetTimeout _ => true | _ => false end.

Definition is_println (e : event) : bool :=
  match e with EvPrintln _ => true | _ => false end.

Definition count (p : event -> bool) (l : list event) : nat :=
  length (filter p l).

(** Range requests issued and not yet returned at the end of [l]. *)
Definition outstanding (l : list event) : Z :=
  Z.of_nat (count is_request l) - Z.of_nat (count is_return l).

(** The log [l] shows one request at a time: at every point of it at
    most one request is outstanding, and a request is issued only when
    none is. *)
Definition sequential (l : list event) : Prop :=
  forall k,
    0 <= outstanding (firstn k l) <= 1 /\
    (nth_error l k = Some EvRangeRequest -> outstanding (firstn k l) = 0).

(** *** Reading the channel *)

Definition is_digit (c : ascii) : bool :=
  ((48 <=? N_of_ascii c) && (N_of_ascii c <=? 57))%N.

Definition digit_value (c : ascii) : N := (N_of_ascii c - 48)%N.

(** One or more decimal digits, with an optional minus sign in front. *)
Definition decimal_number (l : list ascii) : bool :=
  match l with
  | [] => false
  | c :: ds =>
      if Ascii.eqb c "-" then
        match ds with [] => false | _ => forallb is_digit ds end
      else forallb is_digit l
  end.

(** A decimal number followed by a line break, and nothing else. *)
Definition decimal_line (l : list ascii) : bool :=
  let n := (length l - 2)%nat in
  decimal_number (firstn n l) &&
  if list_eq_dec ascii_dec (skipn n l) line_break then true else false.

Definition digits_value (ds : list ascii) : N :=
  fold_left (fun a c => (10 * a + digit_value c)%N) ds 0%N.

(** The integer a decimal number denotes. *)
Definition read_int (l : list ascii) : option Z :=
  if decimal_number l then
    match l with
    | [] => None
    | c :: ds =>
        if Ascii.eqb c "-" then Some (- Z.of_N (digits_value ds))
        else Some (Z.of_N (digits_value l))
    end
  else None.

(** The number an observer reads off the channel for the [i]-th run of
    [loop]: the decimal number in front of the line break, if that run
    sent one. *)
Definition reported (int_bits : Z) (env : environment) (i : nat)
  : option Z :=
  let l := emitted int_bits env i in
  if decimal_line l then read_int (firstn (length l - 2) l) else None.

End Observe.

(* ===================================================================== *)
(** ** The host at the other end of the channel *)
(* ===================================================================== *)

Module Host.

Import Platform Observe.

(** Reading the channel line by line: bytes are collected up to a
    carriage return, which must be followed by a line feed; the bytes
    collected are then read as a decimal number.  [cur] holds the bytes
    of the line being collected, last one first.  Bytes after the last
    line break, a carriage return without its line feed, or a line that
    is no decimal number make the reading fail. *)
Fixpoint read_lines (cur : list ascii) (l : list ascii) : option (list Z) :=
  match l with
  | [] => match cur with [] => Some [] | _ :: _ => None end
  | c :: l' =>
      if Ascii.eqb c "013" then
        match l' with
        | d :: l'' =>
            if Ascii.eqb d "010" then
              match read_int (rev cur), read_lines [] l'' with
              | Some z, Some zs => Some (z :: zs)
              | _, _ => None
              end
            else None
        | [] => None
        end
      else read_lines (c :: cur) l'
  end.

(** The numbers the host reads off everything sent so far. *)
Definition read_channel (l : list ascii) : option (list Z) :=
  read_lines [] l.

(** Calls that inspect the driver's timeout flag, and those among them
    that were told of a timeout. *)
Definition is_inspection (e : event) : bool :=
  match e with EvTimeoutOccurred _ => true | _ => false end.

Definition is_timeout_answer (e : event) : bool :=
  match e with EvTimeoutOccurred true => true | _ => false end.

(** What the inspections of the flag recorded in [l] were answered, in
    order. *)
Definition inspection_answers (l : list event) : list bool :=
  flat_map (fun e => match e with EvTimeoutOccurred r => [r] | _ => [] end) l.

(** In the log [l] every [println] comes two calls after the return of
    a range request and one call after an inspection of the flag that
    found it down, and prints the value returned, converted to [int]. *)
Definition prints_fresh_readings (int_bits : Z) (l : list event) : Prop :=
  forall j z,
    nth_error l j = Some (EvPrintln z) ->
    exists k v,
      j = S (S k) /\
      nth_error l k = Some (EvRangeReturn v) /\
      nth_error l (S k) = Some (EvTimeoutOccurred false) /\
      z = MachInt.to_int int_bits v.

End Host.

Import MachInt StateM Platform Sketch Observe Host.

(* ===================================================================== *)
(** ** Conversion to [int] *)
(* ===================================================================== *)

Section IntConversion.

Variable bits : Z.
Hypothesis bits_pos : 1 <= bits.

Lemma pow2_split : 2 ^ bits = 2 * 2 ^ (bits - 1).
Proof.
  replace bits with (Z.succ (bits - 1)) at 1 by lia.
  apply Z.pow_succ_r. lia.
Qed.

Lemma to_int_range z : representable bits (to_int bits z).
Proof.
  unfold representable, int_min, int_max, to_int.
  assert (0 < 2 ^ (bits - 1)) by (apply Z.pow_pos_nonneg; lia).
  pose proof pow2_split.
  pose proof (Z.mod_pos_bound (z + 2 ^ (bits - 1)) (2 ^ bits)). lia.
Qed.

Lemma to_int_exact z : representable bits z -> to_int bits z = z.
Proof.
  unfold representable, int_min, int_max, to_int. intros Hz.
  pose proof pow2_split.
  rewrite Z.mod_small by lia. lia.
Qed.

Lemma to_int_exact_iff z : to_int bits z = z <-> representable bits z.
Proof.
  split.
  - intros <-. apply to_int_range.
  - apply to_int_exact.
Qed.

(** A value one modulus above the signed range comes out negative. *)
Lemma to_int_wrap z :
  int_max bits < z <= 2 * int_max bits + 1 ->
  to_int bits z = z - 2 ^ bits.
Proof.
  unfold int_max, to_int. intros Hz.
  pose proof pow2_split.
  assert (0 < 2 ^ (bits - 1)) by (apply Z.pow_pos_nonneg; lia).
  replace (z + 2 ^ (bits - 1))
    with (z - 2 ^ (bits - 1) + 1 * 2 ^ bits) by lia.
  rewrite Z.mod_add by lia.
  rewrite Z.mod_small by lia. lia.
Qed.

End IntConversion.

Lemma int_max_mono b1 b2 : 1 <= b1 <= b2 -> int_max b1 <= int_max b2.
Proof.
  unfold int_max. intros H.
  assert (2 ^ (b1 - 1) <= 2 ^ (b2 - 1)) by (apply Z.pow_le_mono_r; lia).
  lia.
Qed.

(** On any target a reading up to 32767 is an [int]. *)
Lemma small_representable bits z :
  16 <= bits -> 0 <= z <= 32767 -> representable bits z.
Proof.
  intros Hb Hz. unfold representable, int_min.
  pose proof (int_max_mono 16 bits ltac:(lia)) as Hm.
  change (int_max 16) with 32767 in Hm.
  unfold int_max in *. lia.
Qed.

(** Where [int] is wider than 16 bits every [uint16_t] is an [int]. *)
Lemma uint16_representable bits z :
  17 <= bits -> uint16 z -> representable bits z.
Proof.
  intros Hb Hz. unfold representable, int_min, uint16 in *.
  pose proof (int_max_mono 17 bits ltac:(lia)) as Hm.
  change (int_max 17) with 65535 in Hm. change (2 ^ 16) with 65536 in Hz.
  unfold int_max in *. lia.
Qed.

(* ===================================================================== *)
(** ** Decimal printing *)
(* ===================================================================== *)

Section Decimal.

Lemma printNumber_step n str :
  printNumber n str =
  if N.eq_dec (n / 10) 0 then digit_char (n mod 10) :: str
  else printNumber (n / 10) (digit_char (n mod 10) :: str).
Proof.
  rewrite printNumber_unfold_eq. unfold printNumber_unfold.
  destruct (N.eq_dec (n / 10) 0); reflexivity.
Qed.

(** The digits come out in front of what the buffer holds already. *)
Lemma printNumber_app n str : printNumber n str = printNumber n [] ++ str.
Proof.
  revert str.
  induction n as [n IH] using (well_founded_induction N.lt_wf_0).
  intros str. rewrite (printNumber_step n str), (printNumber_step n []).
  destruct (N.eq_dec (n / 10) 0) as [ Hz | Hnz ]; [ reflexivity | ].
  assert (Hlt : (n / 10 < n)%N).
  { apply N.div_lt; [ | reflexivity ].
    destruct n; [ contradiction Hnz; reflexivity | reflexivity ]. }
  rewrite (IH _ Hlt (digit_char (n mod 10) :: str)).
  rewrite (IH _ Hlt [digit_char (n mod 10)]).
  rewrite <- app_assoc. reflexivity.
Qed.

Lemma is_digit_digit_char c : (c < 10)%N -> is_digit (digit_char c) = true.
Proof.
  intros Hc. unfold is_digit, digit_char.
  rewrite N_ascii_embedding by lia.
  apply andb_true_intro. split; apply N.leb_le; lia.
Qed.

Lemma digit_value_digit_char c :
  (c < 10)%N -> digit_value (digit_char c) = c.
Proof.
  intros Hc. unfold digit_value, digit_char.
  rewrite N_ascii_embedding by lia. lia.
Qed.

Lemma digits_value_snoc ds c :
  digits_value (ds ++ [c]) = (10 * digits_value ds + digit_value c)%N.
Proof.
  unfold digits_value. rewrite fold_left_app. reflexivity.
Qed.

(** What [printNumber] writes into an empty buffer: a digit, which is
    all of it for a number below ten, and otherwise ends the digits of
    the tenth part. *)
Lemma printNumber_last n :
  printNumber n [] =
  if N.eq_dec (n / 10) 0 then [digit_char (n mod 10)]
  else printNumber (n / 10) [] ++ [digit_char (n mod 10)].
Proof.
  rewrite (printNumber_step n []).
  destruct (N.eq_dec (n / 10) 0); [ reflexivity | ].
  apply printNumber_app.
Qed.

Lemma printNumber_digits n : forallb is_digit (printNumber n []) = true.
Proof.
  induction n as [n IH] using (well_founded_induction N.lt_wf_0).
  assert (Hd : is_digit (digit_char (n mod 10)) = true).
  { apply is_digit_digit_char. apply N.mod_lt. discriminate. }
  rewrite printNumber_last.
  destruct (N.eq_dec (n / 10) 0) as [ Hz | Hnz ].
  - cbn [forallb]. rewrite Hd. reflexivity.
  - rewrite forallb_app, IH.
    + cbn [forallb]. rewrite Hd. reflexivity.
    + apply N.div_lt; [ | reflexivity ].
      destruct n; [ contradiction Hnz; reflexivity | reflexivity ].
Qed.

Lemma printNumber_nonempty n : printNumber n [] <> [].
Proof.
  rewrite printNumber_last.
  destruct (N.eq_dec (n / 10) 0); [ discriminate | ].
  intros H. apply app_eq_nil in H. destruct H; discriminate.
Qed.

(** The digits written denote the number printed. *)
Lemma printNumber_value n : digits_value (printNumber n []) = n.
Proof.
  induction n as [n IH] using (well_founded_induction N.lt_wf_0).
  assert (Hm : (n mod 10 < 10)%N) by (apply N.mod_lt; discriminate).
  rewrite printNumber_last.
  destruct (N.eq_dec (n / 10) 0) as [ Hz | Hnz ].
  - unfold digits_value. cbn [fold_left].
    rewrite digit_value_digit_char by exact Hm.
    pose proof (N.div_mod n 10 ltac:(discriminate)). lia.
  - rewrite digits_value_snoc, digit_value_digit_char by exact Hm.
    rewrite IH.
    + pose proof (N.div_mod n 10 ltac:(discriminate)). lia.
    + apply N.div_lt; [ | reflexivity ].
      destruct n; [ contradiction Hnz; reflexivity | reflexivity ].
Qed.

Lemma digit_not_minus c : is_digit c = true -> Ascii.eqb c "-" = false.
Proof.
  intros Hc. destruct (Ascii.eqb_spec c "-") as [ -> | ]; [ | reflexivity ].
  discriminate Hc.
Qed.

Lemma print_int_decimal z : decimal_number (print_int z) = true.
Proof.
  unfold print_int. destruct (z <? 0).
  - pose proof (printNumber_nonempty (Z.to_N (- z))) as Hne.
    pose proof (printNumber_digits (Z.to_N (- z))) as Hds.
    unfold decimal_number. rewrite Ascii.eqb_refl.
    destruct (printNumber (Z.to_N (- z)) []); [ contradiction | exact Hds ].
  - pose proof (printNumber_nonempty (Z.to_N z)) as Hne.
    pose proof (printNumber_digits (Z.to_N z)) as Hds.
    unfold decimal_number.
    destruct (printNumber (Z.to_N z) []) as [ | c ds ]; [ contradiction | ].
    rewrite digit_not_minus; [ exact Hds | ].
    cbn [forallb] in Hds. apply andb_true_iff in Hds. apply Hds.
Qed.

(** Reading back what [print_int] wrote gives the number printed. *)
Lemma read_print_int z : read_int (print_int z) = Some z.
Proof.
  unfold read_int. rewrite print_int_decimal.
  unfold print_int. destruct (Z.ltb_spec z 0) as [ Hneg | Hpos ].
  - rewrite Ascii.eqb_refl, printNumber_value. f_equal. lia.
  - pose proof (printNumber_nonempty (Z.to_N z)) as Hne.
    pose proof (printNumber_digits (Z.to_N z)) as Hds.
    pose proof (printNumber_value (Z.to_N z)) as Hv.
    destruct (printNumber (Z.to_N z) []) as [ | c ds ]; [ contradiction | ].
    rewrite digit_not_minus.
    + rewrite Hv. f_equal. lia.
    + cbn [forallb] in Hds. apply andb_true_iff in Hds. apply Hds.
Qed.

Lemma firstn_line (body : list ascii) :
  firstn (length (body ++ line_break) - 2) (body ++ line_break) = body.
Proof.
  rewrite length_app. cbn [length line_break].
  replace (length body + 2 - 2)%nat with (length body + 0)%nat by lia.
  rewrite firstn_app_2. cbn [firstn]. apply app_nil_r.
Qed.

Lemma skipn_line (body : list ascii) :
  skipn (length (body ++ line_break) - 2) (body ++ line_break) = line_break.
Proof.
  rewrite length_app. cbn [length line_break].
  replace (length body + 2 - 2)%nat with (length body) by lia.
  rewrite skipn_app, skipn_all, Nat.sub_diag. reflexivity.
Qed.

(** Every reported line is a decimal number and a line break. *)
Lemma report_line_decimal bits o : decimal_line (report_line bits o) = true.
Proof.
  unfold decimal_line, report_line.
  rewrite firstn_line, skipn_line, print_int_decimal.
  destruct (list_eq_dec ascii_dec line_break line_break);
    [ reflexivity | contradiction ].
Qed.

End Decimal.

(* ===================================================================== *)
(** ** One iteration, and the board after [n] of them *)
(* ===================================================================== *)

Section Run.

Variable int_bits : Z.
Variable env : environment.

Lemma outcomes_S n : outcomes env (S n) = outcomes env n ++ [env n].
Proof.
  unfold outcomes. rewrite seq_S, map_app. reflexivity.
Qed.

Lemma outcomes_length n : length (outcomes env n) = n.
Proof.
  unfold outcomes. rewrite length_map, length_seq. reflexivity.
Qed.

(** [setup] from reset. *)
Lemma setup_power_on :
  exec setup power_on = World (Some 2000000) 500 false 0 [] setup_log.
Proof. reflexivity. Qed.

(** One run of [loop], whatever the state of the driver's flag. *)
Lemma loop_exec w :
  let o := env (requests w) in
  let t := did_timeout w || timed_out o in
  exec (loop int_bits env) w =
  World (channel w) (io_timeout w) false (S (requests w))
        (wire w ++ (if t then [] else report_line int_bits o))
        (log w ++ [EvRangeRequest; EvRangeReturn (raw o);
                   EvTimeoutOccurred t]
               ++ (if t then [] else [EvPrintln (to_int int_bits (raw o))])).
Proof.
  destruct w as [c io d r wi lg].
  unfold loop, exec, bind, sensor_readRangeSingleMillimeters,
    sensor_timeoutOccurred, Serial_println, ret, record, transmit,
    set_did_timeout, count_request.
  cbn [channel io_timeout did_timeout requests wire log snd].
  destruct (d || timed_out (env r));
    cbn [Z.b2z Z.eqb snd channel io_timeout did_timeout requests wire log];
    unfold report_line; rewrite <- ?app_assoc, ?app_nil_r; reflexivity.
Qed.

(** One run of [loop] entered with the flag down, as it is at the start
    of every iteration. *)
Lemma loop_step w :
  did_timeout w = false ->
  exec (loop int_bits env) w =
  World (channel w) (io_timeout w) false (S (requests w))
        (wire w ++ report int_bits (env (requests w)))
        (log w ++ iteration_log int_bits (env (requests w))).
Proof.
  intros Hd. rewrite loop_exec. cbv zeta. rewrite Hd. cbn [orb].
  unfold report, iteration_log. reflexivity.
Qed.

(** The board after [n] iterations. *)
Lemma boot_world n :
  boot int_bits env n =
  World (Some 2000000) 500 false n
        (concat (map (report int_bits) (outcomes env n)))
        (setup_log ++ concat (map (iteration_log int_bits) (outcomes env n))).
Proof.
  induction n as [ | n IH ].
  - reflexivity.
  - cbn [boot]. rewrite loop_step by (rewrite IH; reflexivity).
    rewrite IH. cbn [channel io_timeout requests wire log].
    rewrite outcomes_S, !map_app, !concat_app. cbn [map concat].
    rewrite !app_nil_r, <- app_assoc. reflexivity.
Qed.

Lemma boot_S n :
  boot int_bits env (S n) =
  World (Some 2000000) 500 false (S n)
        (wire (boot int_bits env n) ++ report int_bits (env n))
        (log (boot int_bits env n) ++ iteration_log int_bits (env n)).
Proof.
  cbn [boot]. rewrite loop_step by (rewrite boot_world; reflexivity).
  rewrite boot_world. reflexivity.
Qed.

Lemma emitted_report i : emitted int_bits env i = report int_bits (env i).
Proof.
  unfold emitted. rewrite boot_S. cbn [wire].
  rewrite skipn_app, skipn_all, Nat.sub_diag. reflexivity.
Qed.

End Run.

(* ===================================================================== *)
(** ** Reading the log of a run *)
(* ===================================================================== *)

Section Log.

Lemma count_app p l1 l2 : count p (l1 ++ l2) = (count p l1 + count p l2)%nat.
Proof.
  unfold count. rewrite filter_app, length_app. reflexivity.
Qed.

Lemma outstanding_app l1 l2 :
  outstanding (l1 ++ l2) = outstanding l1 + outstanding l2.
Proof.
  unfold outstanding. rewrite !count_app. lia.
Qed.

Lemma sequential_app l1 l2 :
  outstanding l1 = 0 -> sequential l1 -> sequential l2 ->
  sequential (l1 ++ l2).
Proof.
  intros H0 H1 H2 k. rewrite firstn_app, outstanding_app.
  destruct (Nat.lt_ge_cases k (length l1)) as [ Hlt | Hge ].
  - replace (k - length l1)%nat with 0%nat by lia. cbn [firstn].
    change (outstanding []) with 0. rewrite Z.add_0_r.
    rewrite nth_error_app1 by exact Hlt. apply H1.
  - rewrite firstn_all2 by exact Hge. rewrite H0, Z.add_0_l.
    rewrite nth_error_app2 by exact Hge. apply H2.
Qed.

Lemma sequential_setup : sequential setup_log.
Proof.
  intros k. do 6 (destruct k as [ | k ]; [ cbn; split; [ lia | discriminate ] | ]).
  cbn. split; [ lia | discriminate ].
Qed.

Lemma sequential_iteration bits o : sequential (iteration_log bits o).
Proof.
  intros k. unfold iteration_log.
  destruct (timed_out o);
    do 5 (destruct k as [ | k ];
          [ cbn; split; [ lia | try discriminate; reflexivity ] | ]);
    cbn; split; [ lia | discriminate | lia | discriminate ].
Qed.

Lemma outstanding_iteration bits o : outstanding (iteration_log bits o) = 0.
Proof.
  unfold iteration_log. destruct (timed_out o); reflexivity.
Qed.

Lemma outstanding_iterations bits os :
  outstanding (concat (map (iteration_log bits) os)) = 0.
Proof.
  induction os as [ | o os IH ]; [ reflexivity | ].
  cbn [map concat]. rewrite outstanding_app, outstanding_iteration, IH.
  reflexivity.
Qed.

Lemma sequential_iterations bits os :
  sequential (concat (map (iteration_log bits) os)).
Proof.
  induction os as [ | o os IH ].
  - intros k. destruct k; cbn; split; (lia || discriminate).
  - cbn [map concat]. apply sequential_app.
    + apply outstanding_iteration.
    + apply sequential_iteration.
    + exact IH.
Qed.

Lemma requests_iterations bits os :
  count is_request (concat (map (iteration_log bits) os)) = length os.
Proof.
  induction os as [ | o os IH ]; [ reflexivity | ].
  cbn [map concat length]. rewrite count_app, IH.
  unfold iteration_log. destruct (timed_out o); reflexivity.
Qed.

Lemma returns_iterations bits os :
  filter is_return (concat (map (iteration_log bits) os)) =
  map (fun o => EvRangeReturn (raw o)) os.
Proof.
  induction os as [ | o os IH ]; [ reflexivity | ].
  cbn [map concat]. rewrite filter_app, IH.
  unfold iteration_log. destruct (timed_out o); reflexivity.
Qed.

Lemma setTimeout_iterations bits os :
  filter is_setTimeout (concat (map (iteration_log bits) os)) = [].
Proof.
  induction os as [ | o os IH ]; [ reflexivity | ].
  cbn [map concat]. rewrite filter_app, IH.
  unfold iteration_log. destruct (timed_out o); reflexivity.
Qed.

(** What is sent is the lines of the measurements that did not time
    out, and nothing in between. *)
Lemma reports_lines bits os :
  concat (map (report bits) os) =
  concat (map (report_line bits)
              (filter (fun o => negb (timed_out o)) os)).
Proof.
  induction os as [ | o os IH ]; [ reflexivity | ].
  cbn [map concat filter]. unfold report at 1.
  destruct (timed_out o); cbn [negb map concat app]; rewrite IH; reflexivity.
Qed.

End Log.

(* ===================================================================== *)
(** ** What the observer reads for one iteration *)
(* ===================================================================== *)

Section Reported.

Variable int_bits : Z.
Variable env : environment.

Lemma reported_outcome i :
  reported int_bits env i =
  if timed_out (env i) then None
  else Some (to_int int_bits (raw (env i))).
Proof.
  unfold reported. rewrite emitted_report. unfold report.
  destruct (timed_out (env i)); [ reflexivity | ].
  rewrite report_line_decimal. unfold report_line.
  rewrite firstn_line. apply read_print_int.
Qed.

Lemma wire_S i :
  wire (boot int_bits env (S i)) =
  wire (boot int_bits env i) ++ emitted int_bits env i.
Proof.
  rewrite emitted_report, boot_S. reflexivity.
Qed.

Lemma log_S i :
  log (boot int_bits env (S i)) =
  log (boot int_bits env i) ++ iteration_log int_bits (env i).
Proof.
  rewrite boot_S. reflexivity.
Qed.

End Reported.

(** Outcomes up to a measurement, that measurement, and the ones after. *)
Lemma outcomes_split env i k :
  outcomes env (S i + k) =
  outcomes env i ++ env i :: map env (seq (S i) k).
Proof.
  unfold outcomes.
  replace (S i + k)%nat with (i + S k)%nat by lia.
  rewrite seq_app, map_app. reflexivity.
Qed.

Lemma outcomes_without env i k :
  outcomes (without i env) (i + k) =
  outcomes env i ++ map env (seq (S i) k).
Proof.
  unfold outcomes. rewrite seq_app, map_app. f_equal.
  - apply map_ext_in. intros j Hj. apply in_seq in Hj. unfold without.
    destruct (Nat.ltb_spec j i); [ reflexivity | lia ].
  - cbn [Nat.add]. rewrite <- seq_shift, map_map.
    apply map_ext_in. intros j Hj. apply in_seq in Hj. unfold without.
    destruct (Nat.ltb_spec j i); [ lia | reflexivity ].
Qed.

(* ===================================================================== *)
(** ** Properties of the sampler *)
(* ===================================================================== *)

(** C1. Timeout suppression: whatever the sensor does, an iteration whose
    measurement times out writes nothing to the reporting channel (the
    channel is as before, no [println] is recorded, the observer reads no
    number); and the outcomes 120 mm, timeout, 95 mm give exactly the two
    lines 120 and 95, the second iteration adding nothing. *)
Theorem timeout_suppression (bits : Z) (env : environment) (i : nat) (v : Z) :
  (timed_out (env i) = true ->
   wire (boot bits env (S i)) = wire (boot bits env i) /\
   emitted bits env i = [] /\
   reported bits env i = None /\
   count is_println (log (boot bits env (S i))) =
   count is_println (log (boot bits env i))) /\
  (16 <= bits ->
   let run :=
     boot bits (feed [Outcome 120 false; Outcome v true; Outcome 95 false]) in
   wire (run 3%nat) =
   list_ascii_of_string "120" ++ line_break ++
   list_ascii_of_string "95" ++ line_break /\
   wire (run 2%nat) = wire (run 1%nat)).
Proof.
  split.
  - intros Ht.
    rewrite wire_S, log_S, count_app, reported_outcome, emitted_report.
    unfold report, iteration_log. rewrite Ht, !app_nil_r.
    repeat split.
    change (count is_println [_; _; _]) with 0%nat. apply Nat.add_0_r.
  - intros Hbits. cbv zeta. rewrite !boot_world. cbn [wire].
    unfold outcomes, feed.
    cbn [seq map nth concat report timed_out raw app].
    unfold report_line. cbn [raw].
    rewrite !(to_int_exact bits) by (try apply small_representable; lia).
    split; reflexivity.
Qed.

Lemma timeout_suppression_witness :
  timed_out (feed mixed_outcomes 1%nat) = true /\
  16 <= 16 /\
  wire (boot 16 (feed mixed_outcomes) 2) = wire (boot 16 (feed mixed_outcomes) 1) /\
  wire (boot 16 (feed mixed_outcomes) 3) =
  list_ascii_of_string "120" ++ line_break ++
  list_ascii_of_string "95" ++ line_break.
Proof.
  assert (H16 : 16 <= 16) by lia.
  split; [ reflexivity | ]. split; [ exact H16 | ]. split.
  - exact (proj1 (proj1 (timeout_suppression 16 (feed mixed_outcomes) 1 255)
                    eq_refl)).
  - exact (proj1 (proj2 (timeout_suppression 16 (feed mixed_outcomes) 1 255)
                    H16)).
Defined.



(** C3. Initialization before acquisition: in every execution the log
    opens with the calls of [setup], in which [init] comes right before
    [configureDefault] and no range request occurs, so that every range
    request in the log comes after both. *)
Theorem init_before_acquisition (bits : Z) (env : environment) (n : nat) :
  log (exec setup power_on) = setup_log /\
  firstn (length setup_log) (log (boot bits env n)) = setup_log /\
  nth_error (log (boot bits env n)) 2 = Some EvInit /\
  nth_error (log (boot bits env n)) 3 = Some EvConfigureDefault /\
  count is_request setup_log = 0%nat /\
  (forall k, nth_error (log (boot bits env n)) k = Some EvRangeRequest ->
             (3 < k)%nat).
Proof.
  rewrite boot_world. cbn [log].
  split; [ reflexivity | ]. split.
  - rewrite firstn_app, Nat.sub_diag, firstn_all. cbn [firstn].
    apply app_nil_r.
  - repeat (split; [ reflexivity | ]).
    intros k Hk.
    do 4 (destruct k as [ | k ]; [ discriminate Hk | ]). lia.
Qed.

Lemma init_before_acquisition_witness :
  nth_error (log (boot 16 (feed mixed_outcomes) 3)) 5 = Some EvRangeRequest /\
  (3 < 5)%nat.
Proof.
  split; [ reflexivity | ].
  exact (proj2 (proj2 (proj2 (proj2 (proj2
           (init_before_acquisition 16 (feed mixed_outcomes) 3)))))
           5%nat eq_refl).
Defined.

(** C4. Unbounded repetition: after [n] iterations, fed any mix of
    successes and timeouts, exactly [n] range requests have been issued
    and the [i]-th of them returned the [i]-th outcome; a run of [loop]
    from any state of the board issues exactly one request, so no state
    is terminal. *)
Theorem unbounded_repetition (bits : Z) (env : environment) (n : nat) :
  count is_request (log (boot bits env n)) = n /\
  requests (boot bits env n) = n /\
  filter is_return (log (boot bits env n)) =
  map (fun o => EvRangeReturn (raw o)) (outcomes env n) /\
  (forall w, count is_request (log (exec (loop bits env) w)) =
             S (count is_request (log w)) /\
             requests (exec (loop bits env) w) = S (requests w)).
Proof.
  rewrite boot_world. cbn [log requests]. split; [ | split; [ | split ] ].
  - rewrite count_app, requests_iterations, outcomes_length. reflexivity.
  - reflexivity.
  - rewrite filter_app, returns_iterations. reflexivity.
  - intros w. rewrite loop_exec. cbv zeta. cbn [log requests].
    split; [ | reflexivity ].
    rewrite !count_app.
    destruct (did_timeout w || timed_out (env (requests w))); cbn; lia.
Qed.

(** C5. Timeout configuration: the log of every execution holds exactly
    one [setTimeout] call, with the value 500, made by [setup]; the
    driver's timeout is 500 after every iteration; and a run of [loop]
    from any state neither calls [setTimeout] nor changes the timeout. *)
Theorem timeout_configured_once (bits : Z) (env : environment) (n : nat) :
  filter is_setTimeout (log (exec setup power_on)) = [EvSetTimeout 500] /\
  filter is_setTimeout (log (boot bits env n)) = [EvSetTimeout 500] /\
  io_timeout (boot bits env n) = 500 /\
  (forall w, filter is_setTimeout (log (exec (loop bits env) w)) =
             filter is_setTimeout (log w) /\
             io_timeout (exec (loop bits env) w) = io_timeout w).
Proof.
  rewrite boot_world. cbn [log io_timeout].
  split; [ reflexivity | ]. split; [ | split; [ reflexivity | ] ].
  - rewrite filter_app, setTimeout_iterations. reflexivity.
  - intros w. rewrite loop_exec. cbv zeta. cbn [log io_timeout].
    split; [ | reflexivity ].
    rewrite !filter_app.
    destruct (did_timeout w || timed_out (env (requests w)));
      cbn [filter is_setTimeout app]; rewrite ?app_nil_r; reflexivity.
Qed.

(** C6. Reporting channel: [setup] opens the channel at 2,000,000 baud,
    as its first call, and sends nothing; after any number of iterations
    the channel is still at that rate and what has been sent is, in
    order, one line per measurement that did not time out and nothing
    else, each line a decimal number followed by a line break. *)
Theorem reporting_channel (bits : Z) (env : environment) (n : nat) :
  channel (exec setup power_on) = Some 2000000 /\
  wire (exec setup power_on) = [] /\
  nth_error (log (boot bits env n)) 0 = Some (EvSerialBegin 2000000) /\
  channel (boot bits env n) = Some 2000000 /\
  (let lines :=
     map (report_line bits)
         (filter (fun o => negb (timed_out o)) (outcomes env n)) in
   wire (boot bits env n) = concat lines /\
   Forall (fun l => decimal_line l = true) lines /\
   count is_println (log (boot bits env n)) = length lines).
Proof.
  rewrite boot_world. cbn [log channel wire].
  repeat (split; [ reflexivity | ]). cbv zeta. split; [ | split ].
  - apply reports_lines.
  - apply Forall_map, Forall_forall. intros o _. apply report_line_decimal.
  - rewrite count_app, length_map. change (count is_println setup_log) with 0%nat.
    cbn [Nat.add].
    induction (outcomes env n) as [ | o os IH ]; [ reflexivity | ].
    cbn [map concat filter]. rewrite count_app, IH.
    unfold iteration_log. destruct (timed_out o); reflexivity.
Qed.

(** C7. Single outstanding request: at every point [k] of the log of
    every execution the range requests issued and not yet returned are
    at most one, and where the next call is a range request there is
    none: a request is issued only after the one before has returned. *)
Theorem single_outstanding_request (bits : Z) (env : environment) (n k : nat) :
  0 <= outstanding (firstn k (log (boot bits env n))) <= 1 /\
  (nth_error (log (boot bits env n)) k = Some EvRangeRequest ->
   outstanding (firstn k (log (boot bits env n))) = 0).
Proof.
  rewrite boot_world. cbn [log]. revert k.
  apply sequential_app.
  - reflexivity.
  - apply sequential_setup.
  - apply sequential_iterations.
Qed.

Lemma single_outstanding_request_witness :
  nth_error (log (boot 16 (feed mixed_outcomes) 3)) 9 = Some EvRangeRequest /\
  outstanding (firstn 9 (log (boot 16 (feed mixed_outcomes) 3))) = 0.
Proof.
  split; [ reflexivity | ].
  exact (proj2 (single_outstanding_request 16 (feed mixed_outcomes) 3 9) eq_refl).
Defined.

(** C8. A timeout alters nothing: when the [i]-th measurement times
    out, what the board retains after that iteration (channel, driver
    timeout, driver flag, bytes sent) is what it retained before it; from
    then on the board retains, after every further iteration, exactly
    what it would had that measurement never been made; and the loop goes
    on, the next call after the timed-out iteration being the next range
    request. *)
Theorem timeout_alters_nothing (bits : Z) (env : environment) (i : nat) :
  timed_out (env i) = true ->
  retained (boot bits env (S i)) = retained (boot bits env i) /\
  (forall k, retained (boot bits env (S i + k)) =
             retained (boot bits (without i env) (i + k))) /\
  nth_error (log (boot bits env (S (S i)))) (length (log (boot bits env (S i))))
  = Some EvRangeRequest.
Proof.
  intros Ht. split; [ | split ].
  - rewrite boot_S, (boot_world bits env i). unfold retained, report.
    cbn [channel io_timeout did_timeout wire]. rewrite Ht, app_nil_r.
    reflexivity.
  - intros k. rewrite !boot_world. unfold retained.
    cbn [channel io_timeout did_timeout wire].
    rewrite outcomes_split, outcomes_without.
    rewrite !map_app, !concat_app. cbn [map concat].
    unfold report at 2. rewrite Ht. reflexivity.
  - rewrite (log_S bits env (S i)).
    rewrite nth_error_app2, Nat.sub_diag by lia. reflexivity.
Qed.

Lemma timeout_alters_nothing_witness :
  timed_out (feed mixed_outcomes 1%nat) = true /\
  retained (boot 16 (feed mixed_outcomes) 2) =
  retained (boot 16 (feed mixed_outcomes) 1).
Proof.
  split; [ reflexivity | ].
  exact (proj1 (timeout_alters_nothing 16 (feed mixed_outcomes) 1 eq_refl)).
Defined.

(** C9. Narrowing to [int]: the reading is converted to [int] before it
    is printed.  Where [int] has 16 bits, a reading above 32767 that did
    not time out is returned by the driver as it is and printed as that
    value less 65536, a negative number, not as the raw value.  On any
    target the number reported is the raw reading exactly when the
    reading is representable in [int]. *)
Theorem int16_reinterpretation (bits : Z) (env : environment) (i : nat) :
  timed_out (env i) = false ->
  uint16 (raw (env i)) ->
  (32767 < raw (env i) ->
   reported 16 env i = Some (raw (env i) - 65536) /\
   raw (env i) - 65536 < 0 /\
   reported 16 env i <> Some (raw (env i)) /\
   log (boot 16 env (S i)) =
   log (boot 16 env i) ++
   [EvRangeRequest; EvRangeReturn (raw (env i)); EvTimeoutOccurred false;
    EvPrintln (raw (env i) - 65536)]) /\
  (16 <= bits ->
   (reported bits env i = Some (raw (env i)) <->
    representable bits (raw (env i)))).
Proof.
  intros Ht Hu. unfold uint16 in Hu. change (2 ^ 16) with 65536 in Hu.
  split.
  - intros Hbig.
    assert (Hw : to_int 16 (raw (env i)) = raw (env i) - 65536).
    { rewrite to_int_wrap; [ reflexivity | lia | ].
      change (int_max 16) with 32767. lia. }
    rewrite reported_outcome, log_S. unfold iteration_log. rewrite Ht, Hw.
    repeat split; [ lia | ].
    intros H. injection H. lia.
  - intros Hbits. rewrite reported_outcome, Ht.
    rewrite <- (to_int_exact_iff bits) by lia.
    split; [ intros H; injection H; trivial | intros ->; reflexivity ].
Qed.

Lemma int16_reinterpretation_witness :
  let env := feed [Outcome 40000 false] in
  timed_out (env 0%nat) = false /\
  uint16 (raw (env 0%nat)) /\
  32767 < raw (env 0%nat) /\
  reported 16 env 0 = Some (raw (env 0%nat) - 65536).
Proof.
  cbv zeta.
  assert (Hu : uint16 (raw (feed [Outcome 40000 false] 0%nat)))
    by (vm_compute; intuition discriminate).
  assert (Hbig : 32767 < raw (feed [Outcome 40000 false] 0%nat))
    by reflexivity.
  split; [ reflexivity | ]. split; [ exact Hu | ]. split; [ exact Hbig | ].
  exact (proj1 (proj1 (int16_reinterpretation 16 (feed [Outcome 40000 false])
                         0 eq_refl Hu) Hbig)).
Defined.

(** C10. The output of an iteration depends on its own measurement only:
    in two executions whose [i]-th measurements return the same value
    and the same timeout flag, the [i]-th iteration adds the same bytes
    to the channel (the same line, or nothing), whatever the other
    measurements were; these bytes are those of [report], a function of
    the outcome alone. *)
Theorem output_depends_on_outcome_only
        (bits : Z) (env1 env2 : environment) (i : nat) :
  raw (env1 i) = raw (env2 i) ->
  timed_out (env1 i) = timed_out (env2 i) ->
  emitted bits env1 i = emitted bits env2 i /\
  reported bits env1 i = reported bits env2 i /\
  wire (boot bits env1 (S i)) =
  wire (boot bits env1 i) ++ report bits (env1 i) /\
  wire (boot bits env2 (S i)) =
  wire (boot bits env2 i) ++ report bits (env1 i).
Proof.
  intros Hr Ht.
  assert (He : report bits (env1 i) = report bits (env2 i)).
  { unfold report, report_line. rewrite Hr, Ht. reflexivity. }
  rewrite !reported_outcome, !wire_S, !emitted_report, Hr, Ht, He.
  repeat split.
Qed.

Lemma output_depends_on_outcome_only_witness :
  let env1 := feed mixed_outcomes in
  let env2 := feed [no_answer; Outcome 300 false; Outcome 95 false; no_answer] in
  raw (env1 2%nat) = raw (env2 2%nat) /\
  timed_out (env1 2%nat) = timed_out (env2 2%nat) /\
  emitted 16 env1 2 = emitted 16 env2 2.
Proof.
  cbv zeta. split; [ reflexivity | ]. split; [ reflexivity | ].
  exact (proj1 (output_depends_on_outcome_only 16 (feed mixed_outcomes)
                  (feed [no_answer; Outcome 300 false; Outcome 95 false; no_answer])
                  2 eq_refl eq_refl)).
Defined.

(* ===================================================================== *)
(** ** Reading the channel back *)
(* ===================================================================== *)

Section Channel.

Lemma digit_not_cr c : is_digit c = true -> Ascii.eqb c "013" = false.
Proof.
  intros Hc. destruct (Ascii.eqb_spec c "013") as [ -> | ]; [ | reflexivity ].
  discriminate Hc.
Qed.

(** No byte of a printed number is a carriage return. *)
Lemma print_int_no_cr z :
  Forall (fun c => Ascii.eqb c "013" = false) (print_int z).
Proof.
  assert (Hd : forall n, Forall (fun c => Ascii.eqb c "013" = false)
                                (printNumber n [])).
  { intros n. apply Forall_forall. intros c Hc. apply digit_not_cr.
    pose proof (printNumber_digits n) as Hds.
    rewrite forallb_forall in Hds. apply Hds, Hc. }
  unfold print_int. destruct (z <? 0); [ constructor; [ reflexivity | ] | ];
    apply Hd.
Qed.

(** The reader collects a line body free of carriage returns up to the
    line break and goes on behind it. *)
Lemma read_lines_body body :
  Forall (fun c => Ascii.eqb c "013" = false) body ->
  forall cur rest,
    read_lines cur (body ++ line_break ++ rest) =
    match read_int (rev cur ++ body), read_lines [] rest with
    | Some z, Some zs => Some (z :: zs)
    | _, _ => None
    end.
Proof.
  induction 1 as [ | c body Hc _ IH ]; intros cur rest.
  - rewrite app_nil_r. reflexivity.
  - cbn [app read_lines]. rewrite Hc, IH. cbn [rev].
    rewrite <- app_assoc. reflexivity.
Qed.

Lemma read_report_lines bits os :
  read_channel (concat (map (report_line bits) os)) =
  Some (map (fun o => to_int bits (raw o)) os).
Proof.
  unfold read_channel. induction os as [ | o os IH ]; [ reflexivity | ].
  cbn [map concat]. unfold report_line at 1. rewrite <- app_assoc.
  rewrite read_lines_body by apply print_int_no_cr.
  cbn [rev app]. rewrite read_print_int, IH. reflexivity.
Qed.

End Channel.

(* ===================================================================== *)
(** ** Size of what is printed *)
(* ===================================================================== *)

Section Size.

(** A number below [10 ^ (k + 1)] is printed with at most [k + 1]
    digits. *)
Lemma printNumber_length k :
  forall n, (n < 10 ^ N.of_nat (S k))%N ->
            (length (printNumber n []) <= S k)%nat.
Proof.
  induction k as [ | k IH ]; intros n Hn; rewrite printNumber_last.
  - change (10 ^ N.of_nat 1)%N with 10%N in Hn.
    destruct (N.eq_dec (n / 10) 0) as [ _ | Hnz ]; [ cbn; lia | ].
    contradiction Hnz. apply N.div_small. exact Hn.
  - destruct (N.eq_dec (n / 10) 0) as [ _ | _ ]; [ cbn; lia | ].
    rewrite length_app. cbn [length].
    rewrite Nat2N.inj_succ, N.pow_succ_r' in Hn.
    assert (Hq : (n / 10 < 10 ^ N.of_nat (S k))%N)
      by (apply N.Div0.div_lt_upper_bound; exact Hn).
    specialize (IH _ Hq). lia.
Qed.

Lemma print_int_length z :
  -99999 <= z <= 99999 -> (length (print_int z) <= 6)%nat.
Proof.
  intros Hz. unfold print_int. destruct (Z.ltb_spec z 0).
  - cbn [length]. apply le_n_S. apply (printNumber_length 4).
    change (10 ^ N.of_nat 5)%N with 100000%N. lia.
  - apply Nat.le_trans with 5%nat; [ | lia ]. apply (printNumber_length 4).
    change (10 ^ N.of_nat 5)%N with 100000%N. lia.
Qed.

(** Where a [uint16_t] reading ends up when stored in an [int]. *)
Lemma to_int_uint16 bits z :
  16 <= bits -> uint16 z -> -32768 <= to_int bits z <= 65535.
Proof.
  intros Hb Hz.
  destruct (Z.eq_dec bits 16) as [ -> | Hne ].
  - pose proof (to_int_range 16 ltac:(lia) z) as Hr.
    unfold representable in Hr.
    change (int_min 16) with (-32768) in Hr.
    change (int_max 16) with 32767 in Hr. lia.
  - rewrite to_int_exact; [ | lia | apply uint16_representable; [ lia | exact Hz ] ].
    unfold uint16 in Hz. change (2 ^ 16) with 65536 in Hz. lia.
Qed.

Lemma report_length bits o :
  16 <= bits -> uint16 (raw o) -> (length (report bits o) <= 8)%nat.
Proof.
  intros Hb Ho. unfold report, report_line.
  destruct (timed_out o); [ cbn; lia | ].
  rewrite length_app. cbn [length line_break].
  pose proof (to_int_uint16 bits (raw o) Hb Ho) as Hr.
  pose proof (print_int_length (to_int bits (raw o)) ltac:(lia)). lia.
Qed.

End Size.

(* ===================================================================== *)
(** ** Where a printed value comes from *)
(* ===================================================================== *)

Section Provenance.

Variable bits : Z.

Lemma prints_fresh_app l1 l2 :
  prints_fresh_readings bits l1 -> prints_fresh_readings bits l2 ->
  prints_fresh_readings bits (l1 ++ l2).
Proof.
  intros H1 H2 j z Hj.
  destruct (Nat.lt_ge_cases j (length l1)) as [ Hlt | Hge ].
  - rewrite nth_error_app1 in Hj by exact Hlt.
    destruct (H1 j z Hj) as (k & v & -> & Hk & Hk1 & Hz).
    exists k, v. rewrite !nth_error_app1 by lia. auto.
  - rewrite nth_error_app2 in Hj by exact Hge.
    destruct (H2 _ z Hj) as (k & v & Hjk & Hk & Hk1 & Hz).
    exists (length l1 + k)%nat, v.
    rewrite !nth_error_app2 by lia.
    replace (length l1 + k - length l1)%nat with k by lia.
    replace (S (length l1 + k) - length l1)%nat with (S k) by lia.
    repeat split; [ lia | assumption .. ].
Qed.

Lemma prints_fresh_setup : prints_fresh_readings bits setup_log.
Proof.
  intros j z Hj.
  do 5 (destruct j as [ | j ]; [ discriminate Hj | ]).
  destruct j; discriminate Hj.
Qed.

Lemma prints_fresh_iteration o : prints_fresh_readings bits (iteration_log bits o).
Proof.
  intros j z Hj. unfold iteration_log in *.
  destruct (timed_out o) eqn:Ht; cbn [app] in Hj.
  - do 3 (destruct j as [ | j ]; [ discriminate Hj | ]).
    destruct j; discriminate Hj.
  - do 3 (destruct j as [ | j ]; [ discriminate Hj | ]).
    destruct j as [ | j ]; [ | destruct j; discriminate Hj ].
    injection Hj as <-. exists 1%nat, (raw o). repeat split.
Qed.

Lemma prints_fresh_iterations os :
  prints_fresh_readings bits (concat (map (iteration_log bits) os)).
Proof.
  induction os as [ | o os IH ].
  - intros j z Hj. destruct j; discriminate Hj.
  - cbn [map concat]. apply prints_fresh_app;
      [ apply prints_fresh_iteration | exact IH ].
Qed.

End Provenance.

(* ===================================================================== *)
(** ** Counting the calls of the iterations *)
(* ===================================================================== *)

Section Accounting.

Variable bits : Z.

Lemma inspections_iterations os :
  count is_inspection (concat (map (iteration_log bits) os)) = length os.
Proof.
  induction os as [ | o os IH ]; [ reflexivity | ].
  cbn [map concat length]. rewrite count_app, IH.
  unfold iteration_log. destruct (timed_out o); reflexivity.
Qed.

Lemma timeout_answers_iterations os :
  count is_timeout_answer (concat (map (iteration_log bits) os)) =
  length (filter timed_out os).
Proof.
  induction os as [ | o os IH ]; [ reflexivity | ].
  cbn [map concat filter]. rewrite count_app, IH.
  unfold iteration_log. destruct (timed_out o); reflexivity.
Qed.

Lemma printlns_iterations os :
  count is_println (concat (map (iteration_log bits) os)) =
  length (filter (fun o => negb (timed_out o)) os).
Proof.
  induction os as [ | o os IH ]; [ reflexivity | ].
  cbn [map concat filter]. rewrite count_app, IH.
  unfold iteration_log. destruct (timed_out o); reflexivity.
Qed.

End Accounting.

(* ===================================================================== *)
(** ** Further properties of [setup] and [loop] *)
(* ===================================================================== *)

(** X1. The channel and the log only grow, and by what the iterations in
    between add: after [n + m] iterations the bytes sent are those sent
    after [n] iterations followed by the reports of the measurements
    [n], ..., [n + m - 1], and likewise for the calls logged. *)
Theorem iterations_compose (bits : Z) (env : environment) (n m : nat) :
  wire (boot bits env (n + m)) =
  wire (boot bits env n) ++
  concat (map (report bits) (map env (seq n m))) /\
  log (boot bits env (n + m)) =
  log (boot bits env n) ++
  concat (map (iteration_log bits) (map env (seq n m))).
Proof.
  rewrite !boot_world. cbn [wire log]. unfold outcomes.
  rewrite seq_app, !map_app, !concat_app, <- app_assoc. cbn [Nat.add].
  split; reflexivity.
Qed.

(** X2. The channel reads back: a host that splits everything sent after
    any number of iterations at the line breaks and reads each line as a
    decimal number gets, in order, the readings of the measurements that
    did not time out, each converted to [int]; no byte is left over. *)
Theorem channel_reads_back (bits : Z) (env : environment) (n : nat) :
  read_channel (wire (boot bits env n)) =
  Some (map (fun o => to_int bits (raw o))
            (filter (fun o => negb (timed_out o)) (outcomes env n))).
Proof.
  rewrite boot_world. cbn [wire].
  rewrite reports_lines. apply read_report_lines.
Qed.

(** X3. No reading is lost in the narrowing to [int]: on a target whose
    [int] has at least 16 bits, the number reported for a [uint16_t]
    reading that did not time out is representable in [int] and equals
    the raw reading modulo 65536, so the host recovers the raw reading
    from the line even where it was printed as a negative number. *)
Theorem raw_reading_recoverable (bits : Z) (env : environment) (i : nat) :
  16 <= bits ->
  uint16 (raw (env i)) ->
  timed_out (env i) = false ->
  exists z,
    reported bits env i = Some z /\
    representable bits z /\
    z mod 65536 = raw (env i).
Proof.
  intros Hb Hu Ht. exists (to_int bits (raw (env i))).
  rewrite reported_outcome, Ht. split; [ reflexivity | ].
  split; [ apply to_int_range; lia | ].
  pose proof Hu as Hu'. unfold uint16 in Hu'. change (2 ^ 16) with 65536 in Hu'.
  destruct (Z.eq_dec bits 16) as [ -> | Hne ].
  - destruct (Z_le_gt_dec (raw (env i)) 32767) as [ Hs | Hl ].
    + rewrite to_int_exact; [ apply Z.mod_small; lia | lia | ].
      apply small_representable; lia.
    + rewrite to_int_wrap; [ | lia | change (int_max 16) with 32767; lia ].
      change (2 ^ 16) with 65536.
      replace (raw (env i) - 65536) with (raw (env i) + (-1) * 65536) by lia.
      rewrite Z.mod_add by lia. apply Z.mod_small. lia.
  - rewrite to_int_exact; [ apply Z.mod_small; lia | lia | ].
    apply uint16_representable; [ lia | exact Hu ].
Qed.

Lemma raw_reading_recoverable_witness :
  let env := feed [Outcome 40000 false] in
  16 <= 16 /\
  uint16 (raw (env 0%nat)) /\
  timed_out (env 0%nat) = false /\
  exists z, reported 16 env 0 = Some z /\ representable 16 z /\
            z mod 65536 = raw (env 0%nat).
Proof.
  cbv zeta.
  assert (H16 : 16 <= 16) by lia.
  assert (Hu : uint16 (raw (feed [Outcome 40000 false] 0%nat)))
    by (vm_compute; intuition discriminate).
  split; [ exact H16 | ]. split; [ exact Hu | ]. split; [ reflexivity | ].
  exact (raw_reading_recoverable 16 (feed [Outcome 40000 false]) 0
           H16 Hu eq_refl).
Defined.

(** X4. Bound on the traffic: on a target whose [int] has at least 16
    bits and with a sensor whose readings are [uint16_t] values, an
    iteration sends at most 8 bytes (sign, five digits, line break), and
    [n] iterations send at most [8 * n]. *)
Theorem traffic_bound (bits : Z) (env : environment) (n : nat) :
  16 <= bits ->
  (forall i, uint16 (raw (env i))) ->
  (forall i, (length (emitted bits env i) <= 8)%nat) /\
  (length (wire (boot bits env n)) <= 8 * n)%nat.
Proof.
  intros Hb Hu. split.
  - intros i. rewrite emitted_report. apply report_length; [ exact Hb | apply Hu ].
  - induction n as [ | n IH ].
    + rewrite boot_world. cbn. lia.
    + rewrite wire_S, emitted_report, length_app.
      pose proof (report_length bits (env n) Hb (Hu n)). lia.
Qed.

Lemma traffic_bound_witness :
  16 <= 16 /\
  (forall i, uint16 (raw (feed mixed_outcomes i))) /\
  (length (wire (boot 16 (feed mixed_outcomes) 3)) <= 8 * 3)%nat.
Proof.
  assert (H16 : 16 <= 16) by lia.
  assert (Hu : forall i, uint16 (raw (feed mixed_outcomes i))).
  { intros i. do 3 (destruct i as [ | i ]; [ vm_compute; intuition discriminate | ]).
    destruct i; vm_compute; intuition discriminate. }
  split; [ exact H16 | ]. split; [ exact Hu | ].
  exact (proj2 (traffic_bound 16 (feed mixed_outcomes) 3 H16 Hu)).
Defined.

(** X5. A timeout never carries over to a later iteration: in every
    execution the driver's flag is down whenever [loop] is entered, and
    the answers the inspections of the flag were given are, in order,
    the timeout flags of the measurements made, so that each iteration
    decides by its own measurement. *)
Theorem flag_tracks_own_measurement (bits : Z) (env : environment) (n : nat) :
  did_timeout (boot bits env n) = false /\
  inspection_answers (log (boot bits env n)) =
  map timed_out (outcomes env n).
Proof.
  rewrite boot_world. cbn [did_timeout log]. split; [ reflexivity | ].
  unfold inspection_answers. rewrite flat_map_app.
  cbn [setup_log flat_map app].
  induction (outcomes env n) as [ | o os IH ]; [ reflexivity | ].
  cbn [map concat]. rewrite flat_map_app, IH.
  unfold iteration_log. destruct (timed_out o); reflexivity.
Qed.

(** X6. Every measurement is accounted for once: after [n] iterations the
    flag has been inspected [n] times, once per request; the inspections
    told of a timeout are as many as the measurements that timed out; and
    the lines printed and the timeouts found add up to [n]. *)
Theorem measurements_accounted (bits : Z) (env : environment) (n : nat) :
  count is_inspection (log (boot bits env n)) = n /\
  count is_timeout_answer (log (boot bits env n)) =
  length (filter timed_out (outcomes env n)) /\
  (count is_println (log (boot bits env n)) +
   count is_timeout_answer (log (boot bits env n)))%nat = n.
Proof.
  rewrite boot_world. cbn [log]. rewrite !count_app.
  rewrite inspections_iterations, timeout_answers_iterations,
    printlns_iterations, outcomes_length.
  change (count is_inspection setup_log) with 0%nat.
  change (count is_timeout_answer setup_log) with 0%nat.
  change (count is_println setup_log) with 0%nat. cbn [Nat.add].
  repeat split.
  rewrite <- (outcomes_length env n) at 3.
  induction (outcomes env n) as [ | o os IH ]; [ reflexivity | ].
  cbn [filter length]. destruct (timed_out o); cbn [negb length]; lia.
Qed.

(** X7. Only fresh readings are printed: in the log of every execution
    each [println] comes two calls after the return of a range request
    and one call after an inspection of the flag that found it down, and
    its argument is the value that request returned, converted to
    [int]. *)
Theorem println_prints_last_reading
        (bits : Z) (env : environment) (n j : nat) (z : Z) :
  nth_error (log (boot bits env n)) j = Some (EvPrintln z) ->
  exists k v,
    j = S (S k) /\
    nth_error (log (boot bits env n)) k = Some (EvRangeReturn v) /\
    nth_error (log (boot bits env n)) (S k) = Some (EvTimeoutOccurred false) /\
    z = to_int bits v.
Proof.
  rewrite boot_world. cbn [log]. revert j z.
  apply prints_fresh_app.
  - apply prints_fresh_setup.
  - apply prints_fresh_iterations.
Qed.

Lemma println_prints_last_reading_witness :
  nth_error (log (boot 16 (feed mixed_outcomes) 3)) 8 = Some (EvPrintln 120) /\
  exists k v,
    8%nat = S (S k) /\
    nth_error (log (boot 16 (feed mixed_outcomes) 3)) k = Some (EvRangeReturn v) /\
    nth_error (log (boot 16 (feed mixed_outcomes) 3)) (S k)
    = Some (EvTimeoutOccurred false) /\
    120 = to_int 16 v.
Proof.
  split; [ reflexivity | ].
  exact (println_prints_last_reading 16 (feed mixed_outcomes) 3 8 120 eq_refl).
Defined.

(* ===================================================================== *)
(** ** Sample runs *)
(* ===================================================================== *)

Example print_int_120 : print_int 120 = list_ascii_of_string "120".
Proof. reflexivity. Qed.

Example print_int_wrapped :
  print_int (to_int 16 40000) = list_ascii_of_string "-25536".
Proof. vm_compute. reflexivity. Qed.

Example mixed_run_wire :
  wire (boot 16 (feed mixed_outcomes) 3) =
  list_ascii_of_string "120" ++ line_break ++
  list_ascii_of_string "95" ++ line_break.
Proof. vm_compute. reflexivity. Qed.

Example mixed_run_log :
  log (boot 16 (feed mixed_outcomes) 2) =
  [EvSerialBegin 2000000; EvWireBegin; EvInit; EvConfigureDefault;
   EvSetTimeout 500;
   EvRangeRequest; EvRangeReturn 120; EvTimeoutOccurred false; EvPrintln 120;
   EvRangeRequest; EvRangeReturn 255; EvTimeoutOccurred true].
Proof. vm_compute. reflexivity. Qed.

Example lone_minus_is_no_line :
  decimal_line ("-"%char :: line_break) = false.
Proof. reflexivity. Qed.

Example mixed_run_read_back :
  read_channel (wire (boot 16 (feed mixed_outcomes) 3)) = Some [120; 95].
Proof. vm_compute. reflexivity. Qed.

Example unfinished_line_is_not_read :
  read_channel (list_ascii_of_string "120") = None.
Proof. reflexivity. Qed.
